(** * scripts/auth-login.py: a shallow embedding and its properties

    The script posts a fixed credential payload to the register or the login
    endpoint of a local authentication service and pretty-prints the JSON
    answer.  [main] is embedded as a computation in a small state-and-exception
    monad: the state holds the argument list object (Python mutates it in
    place) and the chronological trace of observable events. *)

From Stdlib Require Import String Ascii List ZArith Lia Bool DecimalString.
Import ListNotations.
Open Scope string_scope.

Set Warnings "-register-all".

(** ** Data *)

(** Values of Python's [json] module: what [payload] is and what [r.json()]
    returns. A dict keeps its insertion order, hence the association list. *)
Inductive json : Type :=
| JNull
| JBool (b : bool)
| JInt (n : Z)
| JFloat (literal : string)
| JStr (s : string)
| JArr (items : list json)
| JObj (fields : list (string * json)).

(** The exceptions that can leave [main]. *)
Inductive exn : Type :=
| IndexError                         (* args[1] on a list of fewer than two items *)
| UnboundLocalError (name : string)  (* a local read before any assignment *)
| TransportError                     (* httpx: no response was obtained *)
| HTTPStatusError (status : Z)       (* httpx: raised by raise_for_status *)
| ValueError.                        (* r.json() on a body that cannot be decoded:
                                        json.JSONDecodeError or UnicodeDecodeError,
                                        both of class ValueError *)

Inductive outcome (A : Type) : Type :=
| Return (a : A)
| Raise (e : exn).
Arguments Return {A} a.
Arguments Raise {A} e.

Record Request : Type := mkRequest
  { req_method : string; req_url : string; req_content : string }.

Record Response : Type := mkResponse
  { status_code : Z; content : string }.

(** What the process does that can be seen from outside, in order. *)
Inductive event : Type :=
| ClientEnter              (* httpx.Client().__enter__ *)
| Send (rq : Request)      (* the request handed to the network *)
| ClientExit               (* httpx.Client.__exit__ : the client is closed *)
| PPrint (v : json)        (* rich.pretty.pprint, on standard output *)
| Traceback (e : exn).     (* the interpreter's report of an uncaught exception *)

(** The parts of the run that are not in the script: the JSON codec that
    httpx uses for [json=] and for [Response.json], and the network together
    with the server behind it ([None]: the exchange failed before a response
    arrived). *)
Record World : Type := mkWorld
  { json_dumps : json -> string;
    json_loads : string -> option json;
    transport : Request -> option Response }.

(** ** The monad *)

Record state : Type := mkState
  { args : list string;    (* the list object bound to the parameter [args] *)
    trace : list event }.

Definition M (A : Type) : Type := state -> outcome A * state.

Definition ret {A} (a : A) : M A := fun s => (Return a, s).

Definition raise {A} (e : exn) : M A := fun s => (Raise e, s).

Definition bind {A B} (m : M A) (k : A -> M B) : M B :=
  fun s =>
    match m s with
    | (Return a, s') => k a s'
    | (Raise e, s') => (Raise e, s')
    end.

Notation "x <- m ;; k" := (bind m (fun x => k))
  (at level 61, m at next level, right associativity).
Notation "m ;;; k" := (bind m (fun _ => k))
  (at level 61, right associativity).

Definition emit (e : event) : M unit :=
  fun s => (Return tt, {| args := args s; trace := trace s ++ [e] |}).

(** [len(args)] *)
Definition args_len : M nat := fun s => (Return (length (args s)), s).

(** [args.append(x)]: the list object itself grows. *)
Definition args_append (x : string) : M unit :=
  fun s => (Return tt, {| args := args s ++ [x]; trace := trace s |}).

(** [args[i]] for a non-negative [i]. *)
Definition args_index (i : nat) : M string :=
  fun s =>
    match nth_error (args s) i with
    | Some x => (Return x, s)
    | None => (Raise IndexError, s)
    end.

(** Reading a local variable that an earlier statement may have left
    unassigned. *)
Definition load_local {A} (name : string) (slot : option A) : M A :=
  match slot with
  | Some v => ret v
  | None => raise (UnboundLocalError name)
  end.

(** The [with httpx.Client() as client:] statement: [__exit__] runs when the
    body returns and when it raises, and does not swallow the exception. *)
Definition with_client {A} (body : M A) : M A :=
  fun s =>
    match emit ClientEnter s with
    | (_, s1) =>
        match body s1 with
        | (r, s2) => (r, {| args := args s2; trace := trace s2 ++ [ClientExit] |})
        end
    end.

(** ** The httpx calls *)

(** [client.post(url, json=payload)] *)
Definition client_post (w : World) (url : string) (payload : json) : M Response :=
  let rq := {| req_method := "POST"; req_url := url;
               req_content := json_dumps w payload |} in
  emit (Send rq) ;;;
  match transport w rq with
  | Some r => ret r
  | None => raise TransportError
  end.

(** Modelled from the spec: [Response.raise_for_status] belongs to the httpx
    package, which is not part of the sources. Section 6 has the call fail on
    a "non-success status" and section 2 has the client raise outside the
    success range; for httpx a response is a success when its status is in
    the 2xx class, and [raise_for_status] raises for every other status: the
    4xx and 5xx classes that section 4.2 names, and 1xx, 3xx and codes out of
    range as well. *)
Definition is_error (status : Z) : bool :=
  negb ((200 <=? status) && (status <? 300))%Z.

Definition raise_for_status (r : Response) : M unit :=
  if is_error (status_code r) then raise (HTTPStatusError (status_code r))
  else ret tt.

(** [r.json()] *)
Definition response_json (w : World) (r : Response) : M json :=
  match json_loads w (content r) with
  | Some v => ret v
  | None => raise ValueError
  end.

(** ** The script *)

(** The [match args[1]] statement: the binding of [url] it leaves behind,
    [None] when no case matched and [url] stays unassigned. *)
Definition match_url (subject : string) : option string :=
  if subject =? "register" then Some "http://localhost:3001/api/auth/register"
  else if subject =? "login" then Some "http://localhost:3001/api/auth/login"
  else None.

Definition main (w : World) : M json :=
  let payload :=
    JObj [("email", JStr "joeblackwaslike@me.com");
          ("password", JStr "Prosperis123!")] in
  n <- args_len ;;
  (if Nat.eqb n 0 then args_append "login" else ret tt) ;;;
  subject <- args_index 1 ;;
  let url := match_url subject in
  with_client
    (u <- load_local "url" url ;;
     r <- client_post w u payload ;;
     raise_for_status r ;;;
     response_json w r).

(** One run of the process on the argument vector [argv]. *)
Record run : Type := mkRun
  { result : outcome json;     (* what [main()] did *)
    final_args : list string;  (* sys.argv afterwards *)
    events : list event }.     (* the events of [main] *)

Definition call_main (w : World) (argv : list string) : run :=
  match main w {| args := argv; trace := [] |} with
  | (r, s) => {| result := r; final_args := args s; events := trace s |}
  end.

(** [if __name__ == "__main__": pprint(main())], with the interpreter's
    handling of an uncaught exception: exit status and everything observed. *)
Definition script (w : World) (argv : list string) : Z * list event :=
  let r := call_main w argv in
  match result r with
  | Return v => (0%Z, (events r ++ [PPrint v])%list)
  | Raise e => (1%Z, (events r ++ [Traceback e])%list)
  end.

(** The requests that reached the network. *)
Fixpoint requests (tr : list event) : list Request :=
  match tr with
  | [] => []
  | Send rq :: tr' => rq :: requests tr'
  | _ :: tr' => requests tr'
  end.

(** ** A sample world, for concrete runs *)

Definition dquote : string := String "034"%char EmptyString.

Fixpoint join (sep : string) (parts : list string) : string :=
  match parts with
  | [] => ""
  | [p] => p
  | p :: ps => p ++ sep ++ join sep ps
  end.

(** A compact encoder without string escapes; enough to run the script on. *)
Fixpoint sample_dumps (v : json) : string :=
  match v with
  | JNull => "null"
  | JBool true => "true"
  | JBool false => "false"
  | JInt n => NilZero.string_of_int (Z.to_int n)
  | JFloat l => l
  | JStr s => dquote ++ s ++ dquote
  | JArr items => "[" ++ join "," (map sample_dumps items) ++ "]"
  | JObj fields =>
      "{" ++ join "," (map (fun kv => dquote ++ fst kv ++ dquote ++ ":"
                                      ++ sample_dumps (snd kv)) fields) ++ "}"
  end.

Definition token_json : json := JObj [("token", JStr "abc")].

Definition token_text : string := Eval cbv in sample_dumps token_json.

Definition sample_loads (s : string) : option json :=
  if s =? token_text then Some token_json else None.

(** A server that answers every request with [status] and the token body. *)
Definition answering (status : Z) : World :=
  {| json_dumps := sample_dumps;
     json_loads := sample_loads;
     transport := fun _ => Some {| status_code := status; content := token_text |} |}.

(** A server that cannot be reached. *)
Definition unreachable : World :=
  {| json_dumps := sample_dumps;
     json_loads := sample_loads;
     transport := fun _ => None |}.

(** Evaluation of the monadic operations of [main] on a given state. *)
Ltac run_monad :=
  cbv beta iota zeta delta
    [main bind ret raise args_len args_append args_index with_client load_local
     client_post raise_for_status response_json emit
     args trace length Nat.eqb nth_error].

(** ** Concrete runs *)

Example run_login :
  script (answering 200) ["auth-login.py"; "login"] =
  (0%Z, [ClientEnter;
         Send {| req_method := "POST";
                 req_url := "http://localhost:3001/api/auth/login";
                 req_content := sample_dumps
                   (JObj [("email", JStr "joeblackwaslike@me.com");
                          ("password", JStr "Prosperis123!")]) |};
         ClientExit;
         PPrint (JObj [("token", JStr "abc")])]).
Proof. reflexivity. Qed.

Example run_register_401 :
  fst (script (answering 401) ["auth-login.py"; "register"]) = 1%Z /\
  result (call_main (answering 401) ["auth-login.py"; "register"]) =
  Raise (HTTPStatusError 401).
Proof. split; reflexivity. Qed.

Example run_unreachable :
  script unreachable ["auth-login.py"; "login"; "extra"] =
  (1%Z, [ClientEnter;
         Send {| req_method := "POST";
                 req_url := "http://localhost:3001/api/auth/login";
                 req_content := sample_dumps
                   (JObj [("email", JStr "joeblackwaslike@me.com");
                          ("password", JStr "Prosperis123!")]) |};
         ClientExit;
         Traceback TransportError]).
Proof. reflexivity. Qed.

Example run_empty_vector :
  call_main (answering 200) [] =
  {| result := Raise IndexError; final_args := ["login"]; events := [] |}.
Proof. reflexivity. Qed.

(** ** The selection *)

Lemma match_url_register :
  match_url "register" = Some "http://localhost:3001/api/auth/register".
Proof. reflexivity. Qed.

Lemma match_url_login :
  match_url "login" = Some "http://localhost:3001/api/auth/login".
Proof. reflexivity. Qed.

Lemma match_url_some (subject url : string) :
  match_url subject = Some url <->
  (subject = "register" /\ url = "http://localhost:3001/api/auth/register") \/
  (subject = "login" /\ url = "http://localhost:3001/api/auth/login").
Proof.
  unfold match_url.
  destruct (subject =? "register") eqn:Er.
  - apply String.eqb_eq in Er. subst subject. split.
    + intros [= <-]. left. split; reflexivity.
    + intros [[_ ->] | [Habs _]]; [reflexivity | discriminate Habs].
  - apply String.eqb_neq in Er.
    destruct (subject =? "login") eqn:El.
    + apply String.eqb_eq in El. subst subject. split.
      * intros [= <-]. right. split; reflexivity.
      * intros [[Habs _] | [_ ->]]; [discriminate Habs | reflexivity].
    + apply String.eqb_neq in El. split.
      * discriminate.
      * intros [[-> _] | [-> _]]; [now elim Er | now elim El].
Qed.

Lemma match_url_none (subject : string) :
  match_url subject = None <-> subject <> "register" /\ subject <> "login".
Proof.
  unfold match_url.
  destruct (subject =? "register") eqn:Er.
  - apply String.eqb_eq in Er. split; [discriminate | intros [H _]; now elim H].
  - apply String.eqb_neq in Er.
    destruct (subject =? "login") eqn:El.
    + apply String.eqb_eq in El. split; [discriminate | intros [_ H]; now elim H].
    + apply String.eqb_neq in El. split; [now split | reflexivity].
Qed.

(** ** What [main] does, by the shape of the argument list *)

Lemma main_empty (w : World) (tr : list event) :
  main w {| args := []; trace := tr |} =
  (Raise IndexError, {| args := ["login"]; trace := tr |}).
Proof. reflexivity. Qed.

Lemma main_program_name_only (w : World) (prog : string) (tr : list event) :
  main w {| args := [prog]; trace := tr |} =
  (Raise IndexError, {| args := [prog]; trace := tr |}).
Proof. reflexivity. Qed.

Lemma main_unmatched (w : World) (prog sub : string) (rest : list string)
      (tr : list event) :
  match_url sub = None ->
  main w {| args := prog :: sub :: rest; trace := tr |} =
  (Raise (UnboundLocalError "url"),
   {| args := prog :: sub :: rest;
      trace := (tr ++ [ClientEnter; ClientExit])%list |}).
Proof.
  intros Hsub. run_monad. rewrite Hsub. run_monad.
  now rewrite <- app_assoc.
Qed.

Lemma main_matched (w : World) (prog sub url : string) (rest : list string)
      (tr : list event) :
  match_url sub = Some url ->
  let payload := JObj [("email", JStr "joeblackwaslike@me.com");
                       ("password", JStr "Prosperis123!")] in
  let rq := {| req_method := "POST"; req_url := url;
               req_content := json_dumps w payload |} in
  main w {| args := prog :: sub :: rest; trace := tr |} =
  (match transport w rq with
   | None => Raise TransportError
   | Some r =>
       if is_error (status_code r) then Raise (HTTPStatusError (status_code r))
       else match json_loads w (content r) with
            | Some v => Return v
            | None => Raise ValueError
            end
   end,
   {| args := prog :: sub :: rest;
      trace := (tr ++ [ClientEnter; Send rq; ClientExit])%list |}).
Proof.
  intros Hsub payload rq. run_monad. rewrite Hsub. run_monad.
  fold payload. fold rq.
  destruct (transport w rq) as [r |].
  - destruct (is_error (status_code r)).
    + now rewrite <- !app_assoc.
    + destruct (json_loads w (content r)); now rewrite <- !app_assoc.
  - now rewrite <- !app_assoc.
Qed.

(** The same facts for a whole call, starting from an empty trace. *)

Lemma call_main_unmatched (w : World) (prog sub : string) (rest : list string) :
  match_url sub = None ->
  call_main w (prog :: sub :: rest) =
  {| result := Raise (UnboundLocalError "url");
     final_args := prog :: sub :: rest;
     events := [ClientEnter; ClientExit] |}.
Proof.
  intros Hsub. unfold call_main.
  now rewrite (main_unmatched w prog sub rest [] Hsub).
Qed.

Lemma call_main_matched (w : World) (prog sub url : string) (rest : list string) :
  match_url sub = Some url ->
  let payload := JObj [("email", JStr "joeblackwaslike@me.com");
                       ("password", JStr "Prosperis123!")] in
  let rq := {| req_method := "POST"; req_url := url;
               req_content := json_dumps w payload |} in
  call_main w (prog :: sub :: rest) =
  {| result :=
       match transport w rq with
       | None => Raise TransportError
       | Some r =>
           if is_error (status_code r)
           then Raise (HTTPStatusError (status_code r))
           else match json_loads w (content r) with
                | Some v => Return v
                | None => Raise ValueError
                end
       end;
     final_args := prog :: sub :: rest;
     events := [ClientEnter; Send rq; ClientExit] |}.
Proof.
  intros Hsub payload rq. unfold call_main.
  now rewrite (main_matched w prog sub url rest [] Hsub).
Qed.

(** Every call leaves one of three traces. *)
Lemma events_shape (w : World) (argv : list string) :
  events (call_main w argv) = [] \/
  events (call_main w argv) = [ClientEnter; ClientExit] \/
  exists sub url,
    nth_error argv 1 = Some sub /\ match_url sub = Some url /\
    events (call_main w argv) =
    [ClientEnter;
     Send {| req_method := "POST"; req_url := url;
             req_content :=
               json_dumps w (JObj [("email", JStr "joeblackwaslike@me.com");
                                   ("password", JStr "Prosperis123!")]) |};
     ClientExit].
Proof.
  destruct argv as [| prog [| sub rest]]; [now left | now left | ].
  destruct (match_url sub) as [url |] eqn:Hsub.
  - right; right. exists sub, url.
    rewrite (call_main_matched w prog sub url rest Hsub). now repeat split.
  - right; left. now rewrite (call_main_unmatched w prog sub rest Hsub).
Qed.

Lemma is_error_spec (status : Z) :
  is_error status = false <-> (200 <= status < 300)%Z.
Proof.
  unfold is_error. rewrite negb_false_iff, andb_true_iff, Z.leb_le, Z.ltb_lt.
  tauto.
Qed.

Lemma requests_snoc (tr : list event) (e : event) :
  (forall rq, e <> Send rq) -> requests (tr ++ [e]) = requests tr.
Proof.
  intros He. induction tr as [| e0 tr IH]; cbn.
  - destruct e; try reflexivity. now elim (He rq).
  - destruct e0; cbn; now rewrite IH.
Qed.

(** Printing the result, or the traceback, sends nothing. *)
Lemma requests_script (w : World) (argv : list string) :
  requests (snd (script w argv)) = requests (events (call_main w argv)).
Proof.
  unfold script. destruct (result (call_main w argv)); cbn [snd];
    apply requests_snoc; discriminate.
Qed.

(** ** The properties *)

(** C1 (the code at the failing input). Started with the program name alone,
    the script does not fall back to "login": [len(args)] is 1, not 0, so
    nothing is appended, [args[1]] raises IndexError, no request is sent and
    the process ends with status 1. *)
Theorem no_subcommand_raises_index_error (w : World) :
  script w ["auth-login.py"] = (1%Z, [Traceback IndexError]) /\
  requests (events (call_main w ["auth-login.py"])) = [] /\
  final_args (call_main w ["auth-login.py"]) = ["auth-login.py"].
Proof. repeat split. Qed.

(** C2. With "register" as the sub-command the one request goes to
    http://localhost:3001/api/auth/register, with "login" it goes to
    http://localhost:3001/api/auth/login, whatever the program name, the
    further arguments and the server are. *)
Theorem subcommand_selects_url (w : World) (prog : string) (rest : list string) :
  (match_url "register" = Some "http://localhost:3001/api/auth/register" /\
   map req_url (requests (events (call_main w (prog :: "register" :: rest)))) =
   ["http://localhost:3001/api/auth/register"]) /\
  (match_url "login" = Some "http://localhost:3001/api/auth/login" /\
   map req_url (requests (events (call_main w (prog :: "login" :: rest)))) =
   ["http://localhost:3001/api/auth/login"]).
Proof.
  split; split; try reflexivity.
  - now rewrite (call_main_matched w prog _ _ rest match_url_register).
  - now rewrite (call_main_matched w prog _ _ rest match_url_login).
Qed.

(** C3. Every request that a call of [main] sends is a POST whose body is the
    JSON encoding of the fixed payload
    {"email": "joeblackwaslike@me.com", "password": "Prosperis123!"},
    for every argument list. *)
Theorem request_body_is_fixed_payload (w : World) (argv : list string)
        (rq : Request) :
  In (Send rq) (events (call_main w argv)) ->
  req_method rq = "POST" /\
  req_content rq =
  json_dumps w (JObj [("email", JStr "joeblackwaslike@me.com");
                      ("password", JStr "Prosperis123!")]).
Proof.
  intros Hin.
  destruct (events_shape w argv) as [E | [E | (sub & url & _ & _ & E)]];
    rewrite E in Hin; cbn in Hin.
  - contradiction.
  - destruct Hin as [H | [H | []]]; discriminate H.
  - destruct Hin as [H | [H | [H | []]]]; try discriminate H.
    injection H as <-. now split.
Qed.

Lemma request_body_is_fixed_payload_witness :
  let rq := {| req_method := "POST";
               req_url := "http://localhost:3001/api/auth/register";
               req_content := sample_dumps
                 (JObj [("email", JStr "joeblackwaslike@me.com");
                        ("password", JStr "Prosperis123!")]) |} in
  In (Send rq) (events (call_main (answering 200) ["auth-login.py"; "register"])) /\
  req_method rq = "POST" /\
  req_content rq =
  sample_dumps (JObj [("email", JStr "joeblackwaslike@me.com");
                      ("password", JStr "Prosperis123!")]).
Proof.
  intros rq.
  assert (Hin : In (Send rq)
                   (events (call_main (answering 200) ["auth-login.py"; "register"])))
    by (cbn; right; left; reflexivity).
  split; [exact Hin | ].
  exact (request_body_is_fixed_payload (answering 200)
           ["auth-login.py"; "register"] rq Hin).
Defined.

(** C4 (as stated, refuted). A response with status 302 reports no client or
    server error, and still the status check raises the HTTP status error. *)
Lemma redirect_status_raises :
  result (call_main (answering 302) ["auth-login.py"; "login"]) =
  Raise (HTTPStatusError 302) /\
  ~ (400 <= 302 < 600)%Z.
Proof. split; [reflexivity | lia]. Qed.

(** C4 (amended). Once the server has answered the request, the call of
    [main] ends in the HTTP status error exactly when the status is not a
    success status, that is outside the 2xx class; this covers every 4xx and
    5xx status. For a 2xx status its outcome is that of [r.json()]: the
    parsed body is what [main] returns. *)
Theorem status_check_then_json (w : World) (prog sub url : string)
        (rest : list string) (r : Response) :
  match_url sub = Some url ->
  transport w {| req_method := "POST"; req_url := url;
                 req_content :=
                   json_dumps w (JObj [("email", JStr "joeblackwaslike@me.com");
                                       ("password", JStr "Prosperis123!")]) |}
  = Some r ->
  let out := result (call_main w (prog :: sub :: rest)) in
  ((exists status, out = Raise (HTTPStatusError status)) <->
   ~ (200 <= status_code r < 300)%Z) /\
  (~ (200 <= status_code r < 300)%Z ->
   out = Raise (HTTPStatusError (status_code r))) /\
  ((400 <= status_code r < 600)%Z ->
   out = Raise (HTTPStatusError (status_code r))) /\
  ((200 <= status_code r < 300)%Z ->
   out = match json_loads w (content r) with
         | Some v => Return v
         | None => Raise ValueError
         end).
Proof.
  intros Hsub Hr out. subst out.
  rewrite (call_main_matched w prog sub url rest Hsub). cbn [result].
  rewrite Hr. pose proof (is_error_spec (status_code r)) as Hspec.
  destruct (is_error (status_code r)).
  - assert (Hout : ~ (200 <= status_code r < 300)%Z)
      by (intros H; apply Hspec in H; discriminate H).
    split; [split | split; [ | split]].
    + intros _. exact Hout.
    + intros _. now exists (status_code r).
    + reflexivity.
    + reflexivity.
    + intros Hin. now elim Hout.
  - assert (Hin : (200 <= status_code r < 300)%Z) by now apply Hspec.
    split; [split | split; [ | split]].
    + intros [status Hst].
      destruct (json_loads w (content r)); discriminate Hst.
    + intros Hout. now elim Hout.
    + intros Hout. now elim Hout.
    + intros Hbad. lia.
    + reflexivity.
Qed.

Lemma status_check_then_json_witness :
  (exists status,
      result (call_main (answering 401) ["auth-login.py"; "login"]) =
      Raise (HTTPStatusError status)) /\
  result (call_main (answering 200) ["auth-login.py"; "login"]) =
  Return (JObj [("token", JStr "abc")]).
Proof.
  split.
  - apply (status_check_then_json (answering 401) "auth-login.py" "login"
             "http://localhost:3001/api/auth/login" []
             {| status_code := 401; content := token_text |}
             eq_refl eq_refl).
    cbn. lia.
  - apply (status_check_then_json (answering 200) "auth-login.py" "login"
             "http://localhost:3001/api/auth/login" []
             {| status_code := 200; content := token_text |}
             eq_refl eq_refl).
    cbn. lia.
Defined.

(** C5. With a sub-command other than "register" and "login" no case of the
    [match] binds [url]; reading it for the call raises the unbound-local
    lookup error, which nothing catches, and the process ends with a non-zero
    status (1) after reporting it. *)
Theorem unrecognized_subcommand_crashes (w : World) (prog sub : string)
        (rest : list string) :
  sub <> "register" -> sub <> "login" ->
  result (call_main w (prog :: sub :: rest)) = Raise (UnboundLocalError "url") /\
  fst (script w (prog :: sub :: rest)) <> 0%Z /\
  script w (prog :: sub :: rest) =
  (1%Z, [ClientEnter; ClientExit; Traceback (UnboundLocalError "url")]).
Proof.
  intros Hr Hl.
  assert (Hsub : match_url sub = None) by now apply match_url_none.
  unfold script. rewrite (call_main_unmatched w prog sub rest Hsub).
  cbn. repeat split. discriminate.
Qed.

Lemma unrecognized_subcommand_crashes_witness :
  result (call_main (answering 200) ["auth-login.py"; "reset"]) =
  Raise (UnboundLocalError "url") /\
  fst (script (answering 200) ["auth-login.py"; "reset"]) <> 0%Z /\
  script (answering 200) ["auth-login.py"; "reset"] =
  (1%Z, [ClientEnter; ClientExit; Traceback (UnboundLocalError "url")]).
Proof.
  apply (unrecognized_subcommand_crashes (answering 200) "auth-login.py" "reset" []);
    discriminate.
Defined.

(** C6. With "register" or "login" as the sub-command and a server that
    answers the request with status 200 and the body {"token": "abc"}, the
    script pretty-prints that structure, after closing the client, and exits
    with status 0. *)
Theorem token_response_printed_exit_zero (w : World) (prog sub url : string)
        (rest : list string) (r : Response) :
  match_url sub = Some url ->
  let rq := {| req_method := "POST"; req_url := url;
               req_content :=
                 json_dumps w (JObj [("email", JStr "joeblackwaslike@me.com");
                                     ("password", JStr "Prosperis123!")]) |} in
  transport w rq = Some r ->
  status_code r = 200%Z ->
  json_loads w (content r) = Some (JObj [("token", JStr "abc")]) ->
  script w (prog :: sub :: rest) =
  (0%Z, [ClientEnter; Send rq; ClientExit; PPrint (JObj [("token", JStr "abc")])]).
Proof.
  intros Hsub rq Hr Hst Hbody. unfold script.
  rewrite (call_main_matched w prog sub url rest Hsub). cbn [result events].
  fold rq. rewrite Hr, Hst, Hbody. reflexivity.
Qed.

Lemma token_response_printed_exit_zero_witness :
  script (answering 200) ["auth-login.py"; "register"; "--verbose"] =
  (0%Z, [ClientEnter;
         Send {| req_method := "POST";
                 req_url := "http://localhost:3001/api/auth/register";
                 req_content := sample_dumps
                   (JObj [("email", JStr "joeblackwaslike@me.com");
                          ("password", JStr "Prosperis123!")]) |};
         ClientExit;
         PPrint (JObj [("token", JStr "abc")])]).
Proof.
  apply (token_response_printed_exit_zero (answering 200) "auth-login.py"
           "register" "http://localhost:3001/api/auth/register" ["--verbose"]
           {| status_code := 200; content := token_text |});
    reflexivity.
Defined.

(** C7 (as stated, refuted). Started with the unrecognized sub-command
    "reset", the process ends without having made any network call. *)
Lemma unrecognized_subcommand_sends_nothing :
  length (requests (snd (script (answering 200) ["auth-login.py"; "reset"]))) <> 1.
Proof. cbn. discriminate. Qed.

(** C7 (amended). An invocation that has a sub-command argument makes exactly
    one network call, a POST, when that argument is "register" or "login",
    and none when it is anything else. *)
Theorem requests_per_invocation (w : World) (prog sub : string)
        (rest : list string) :
  length (requests (snd (script w (prog :: sub :: rest)))) =
  (if (sub =? "register") || (sub =? "login") then 1 else 0) /\
  map req_method (requests (snd (script w (prog :: sub :: rest)))) =
  (if (sub =? "register") || (sub =? "login") then ["POST"] else []).
Proof.
  rewrite requests_script.
  destruct (match_url sub) as [url |] eqn:Hsub.
  - rewrite (call_main_matched w prog sub url rest Hsub). cbn.
    apply match_url_some in Hsub as [[-> _] | [-> _]]; now split.
  - rewrite (call_main_unmatched w prog sub rest Hsub). cbn.
    apply match_url_none in Hsub as [Hr Hl].
    apply String.eqb_neq in Hr, Hl. rewrite Hr, Hl. now split.
Qed.

(** C8. Whenever a call of [main] sends a request, its trace is: client
    acquired, the request, client released, and nothing else; this holds for
    every server, so also when the exchange fails, when the status check
    raises and when the body is not JSON. *)
Theorem client_released_around_request (w : World) (argv : list string)
        (rq : Request) :
  In (Send rq) (events (call_main w argv)) ->
  events (call_main w argv) = [ClientEnter; Send rq; ClientExit].
Proof.
  intros Hin.
  destruct (events_shape w argv) as [E | [E | (sub & url & _ & _ & E)]];
    rewrite E in Hin |- *; cbn in Hin.
  - contradiction.
  - destruct Hin as [H | [H | []]]; discriminate H.
  - destruct Hin as [H | [H | [H | []]]]; try discriminate H.
    now injection H as <-.
Qed.

Lemma client_released_around_request_witness :
  let rq := {| req_method := "POST";
               req_url := "http://localhost:3001/api/auth/login";
               req_content := sample_dumps
                 (JObj [("email", JStr "joeblackwaslike@me.com");
                        ("password", JStr "Prosperis123!")]) |} in
  result (call_main unreachable ["auth-login.py"; "login"]) = Raise TransportError /\
  events (call_main unreachable ["auth-login.py"; "login"]) =
  [ClientEnter; Send rq; ClientExit].
Proof.
  intros rq. split; [reflexivity | ].
  apply (client_released_around_request unreachable ["auth-login.py"; "login"] rq).
  cbn. right; left; reflexivity.
Defined.

(** C9. On an argument list of length exactly 1, [args[1]] is out of range:
    [main] raises IndexError with nothing sent and no client opened. The
    appending branch runs only on the empty list; a list that has the program
    name at index 0 is left as it was. *)
Theorem program_name_only_index_error (w : World) (argv : list string) :
  (length argv = 1 ->
   nth_error argv 1 = None /\
   result (call_main w argv) = Raise IndexError /\
   events (call_main w argv) = []) /\
  (argv <> [] -> final_args (call_main w argv) = argv) /\
  (argv = [] -> final_args (call_main w argv) = ["login"]).
Proof.
  split; [ | split].
  - intros Hlen. destruct argv as [| prog [| sub rest]]; try discriminate Hlen.
    now repeat split.
  - intros Hne. destruct argv as [| prog [| sub rest]].
    + now elim Hne.
    + reflexivity.
    + destruct (match_url sub) as [url |] eqn:Hsub.
      * now rewrite (call_main_matched w prog sub url rest Hsub).
      * now rewrite (call_main_unmatched w prog sub rest Hsub).
  - intros ->. reflexivity.
Qed.

Lemma program_name_only_index_error_witness :
  (result (call_main (answering 200) ["auth-login.py"]) = Raise IndexError /\
   events (call_main (answering 200) ["auth-login.py"]) = []) /\
  final_args (call_main (answering 200) ["auth-login.py"]) = ["auth-login.py"].
Proof.
  pose proof (program_name_only_index_error (answering 200) ["auth-login.py"])
    as (Hone & Hkeep & _).
  split.
  - apply Hone. reflexivity.
  - apply Hkeep. discriminate.
Defined.

(** C10. Two argument lists of length at least 2 with the same item at index
    1 lead [main] to the same requests (URL and payload alike), the same
    trace and the same outcome: the program name and the arguments after the
    sub-command play no part. *)
Theorem only_subcommand_matters (w : World) (argv1 argv2 : list string) :
  2 <= length argv1 -> 2 <= length argv2 ->
  nth_error argv1 1 = nth_error argv2 1 ->
  requests (events (call_main w argv1)) = requests (events (call_main w argv2)) /\
  events (call_main w argv1) = events (call_main w argv2) /\
  result (call_main w argv1) = result (call_main w argv2).
Proof.
  intros H1 H2 Hsame.
  destruct argv1 as [| p1 [| s1 r1]]; cbn in H1; try lia.
  destruct argv2 as [| p2 [| s2 r2]]; cbn in H2; try lia.
  cbn in Hsame. injection Hsame as <-.
  destruct (match_url s1) as [url |] eqn:Hsub.
  - rewrite (call_main_matched w p1 s1 url r1 Hsub),
            (call_main_matched w p2 s1 url r2 Hsub). now repeat split.
  - rewrite (call_main_unmatched w p1 s1 r1 Hsub),
            (call_main_unmatched w p2 s1 r2 Hsub). now repeat split.
Qed.

Lemma only_subcommand_matters_witness :
  events (call_main (answering 200) ["auth-login.py"; "login"]) =
  events (call_main (answering 200) ["./x"; "login"; "register"; "reset"]) /\
  result (call_main (answering 200) ["auth-login.py"; "login"]) =
  result (call_main (answering 200) ["./x"; "login"; "register"; "reset"]).
Proof.
  apply (only_subcommand_matters (answering 200) ["auth-login.py"; "login"]
           ["./x"; "login"; "register"; "reset"]).
  - cbn. lia.
  - cbn. lia.
  - reflexivity.
Defined.

(** ** Further properties of [main] and of the script *)

(** With fewer than two items, [main] stops at [args[1]]. *)
Lemma call_main_short (w : World) (argv : list string) :
  length argv < 2 ->
  call_main w argv =
  {| result := Raise IndexError;
     final_args := match argv with [] => ["login"] | _ => argv end;
     events := [] |}.
Proof.
  intros Hlen. destruct argv as [| prog [| sub rest]]; try reflexivity.
  cbn in Hlen. lia.
Qed.

(** X2. [main] raises IndexError exactly on the argument lists of fewer than
    two items, the empty list included (the appended "login" lands at index
    0); on those it opens no client and sends nothing. *)
Theorem index_error_iff_short (w : World) (argv : list string) :
  (result (call_main w argv) = Raise IndexError <-> length argv < 2) /\
  (length argv < 2 -> events (call_main w argv) = []).
Proof.
  split.
  - split.
    + intros Hres. destruct argv as [| prog [| sub rest]]; cbn; try lia.
      exfalso. destruct (match_url sub) as [url |] eqn:Hsub.
      * rewrite (call_main_matched w prog sub url rest Hsub) in Hres.
        cbn [result] in Hres.
        destruct (transport w _) as [r |]; [ | discriminate Hres].
        destruct (is_error (status_code r)); [discriminate Hres | ].
        destruct (json_loads w (content r)); discriminate Hres.
      * rewrite (call_main_unmatched w prog sub rest Hsub) in Hres.
        discriminate Hres.
    + intros Hlen. now rewrite (call_main_short w argv Hlen).
  - intros Hlen. now rewrite (call_main_short w argv Hlen).
Qed.

Lemma index_error_iff_short_witness :
  result (call_main (answering 200) []) = Raise IndexError /\
  events (call_main (answering 200) []) = [].
Proof.
  pose proof (index_error_iff_short (answering 200) []) as ([_ Hshort] & Hquiet).
  split.
  - apply Hshort. cbn. lia.
  - apply Hquiet. cbn. lia.
Defined.

(** X3. When the exchange fails before any response arrives, the exception
    leaves [main] through the [with] block: the client is still closed, the
    response is neither checked nor decoded, nothing is printed and the
    process ends with status 1. *)
Theorem transport_failure_exit_one (w : World) (prog sub url : string)
        (rest : list string) :
  match_url sub = Some url ->
  let rq := {| req_method := "POST"; req_url := url;
               req_content :=
                 json_dumps w (JObj [("email", JStr "joeblackwaslike@me.com");
                                     ("password", JStr "Prosperis123!")]) |} in
  transport w rq = None ->
  script w (prog :: sub :: rest) =
  (1%Z, [ClientEnter; Send rq; ClientExit; Traceback TransportError]).
Proof.
  intros Hsub rq Hnone. unfold script.
  rewrite (call_main_matched w prog sub url rest Hsub). cbn [result events].
  fold rq. now rewrite Hnone.
Qed.

Lemma transport_failure_exit_one_witness :
  script unreachable ["auth-login.py"; "register"] =
  (1%Z, [ClientEnter;
         Send {| req_method := "POST";
                 req_url := "http://localhost:3001/api/auth/register";
                 req_content := sample_dumps
                   (JObj [("email", JStr "joeblackwaslike@me.com");
                          ("password", JStr "Prosperis123!")]) |};
         ClientExit;
         Traceback TransportError]).
Proof.
  apply (transport_failure_exit_one unreachable "auth-login.py" "register"
           "http://localhost:3001/api/auth/register" []);
    reflexivity.
Defined.

(** X4. [main] changes the list it is given at most once: only an empty list
    is changed, to ["login"], so the list afterwards has max(1, len(args))
    items, and a second call on the list object the first call left behind
    (the default argument is the one shared [sys.argv]) leaves it as it is,
    whatever the server answers to either call. *)
Theorem second_call_on_same_list (w1 w2 : World) (argv : list string) :
  let first := call_main w1 argv in
  let second := call_main w2 (final_args first) in
  final_args second = final_args first /\
  final_args first = match argv with [] => ["login"] | _ => argv end /\
  length (final_args first) = Nat.max 1 (length argv).
Proof.
  destruct argv as [| prog [| sub rest]]; cbn zeta.
  - now repeat split.
  - now repeat split.
  - destruct (match_url sub) as [url |] eqn:Hsub.
    + rewrite (call_main_matched w1 prog sub url rest Hsub). cbn [final_args].
      rewrite (call_main_matched w2 prog sub url rest Hsub). now repeat split.
    + rewrite (call_main_unmatched w1 prog sub rest Hsub). cbn [final_args].
      rewrite (call_main_unmatched w2 prog sub rest Hsub). now repeat split.
Qed.

(** X5. Whatever the arguments, a request is only ever sent to one of the
    two fixed endpoints, and to the one that the item at index 1 names: the
    register URL only for "register", the login URL only for "login". *)
Theorem requests_go_to_selected_endpoint (w : World) (argv : list string)
        (rq : Request) :
  In (Send rq) (events (call_main w argv)) ->
  (nth_error argv 1 = Some "register" /\
   req_url rq = "http://localhost:3001/api/auth/register") \/
  (nth_error argv 1 = Some "login" /\
   req_url rq = "http://localhost:3001/api/auth/login").
Proof.
  intros Hin.
  destruct (events_shape w argv) as [E | [E | (sub & url & Hnth & Hsub & E)]];
    rewrite E in Hin; cbn in Hin.
  - contradiction.
  - destruct Hin as [H | [H | []]]; discriminate H.
  - destruct Hin as [H | [H | [H | []]]]; try discriminate H.
    injection H as <-. cbn [req_url]. rewrite Hnth.
    apply match_url_some in Hsub as [[-> ->] | [-> ->]]; [left | right]; now split.
Qed.

Lemma requests_go_to_selected_endpoint_witness :
  nth_error ["auth-login.py"; "login"; "register"] 1 = Some "login" /\
  req_url {| req_method := "POST";
             req_url := "http://localhost:3001/api/auth/login";
             req_content := sample_dumps
               (JObj [("email", JStr "joeblackwaslike@me.com");
                      ("password", JStr "Prosperis123!")]) |} =
  "http://localhost:3001/api/auth/login".
Proof.
  destruct (requests_go_to_selected_endpoint (answering 401)
              ["auth-login.py"; "login"; "register"]
              {| req_method := "POST";
                 req_url := "http://localhost:3001/api/auth/login";
                 req_content := sample_dumps
                   (JObj [("email", JStr "joeblackwaslike@me.com");
                          ("password", JStr "Prosperis123!")]) |})
    as [[Habs _] | Hlogin].
  - cbn. right; left; reflexivity.
  - discriminate Habs.
  - exact Hlogin.
Defined.

(** X6. For every argument list, short ones included, the process makes at
    most one network call: exactly one when index 1 holds "register" or
    "login", none when it holds anything else or does not exist. *)
Theorem request_count_any_argv (w : World) (argv : list string) :
  length (requests (snd (script w argv))) <= 1 /\
  length (requests (snd (script w argv))) =
  match nth_error argv 1 with
  | Some sub => if (sub =? "register") || (sub =? "login") then 1 else 0
  | None => 0
  end.
Proof.
  rewrite requests_script.
  destruct argv as [| prog [| sub rest]]; cbn [nth_error].
  - cbn. lia.
  - cbn. lia.
  - destruct (match_url sub) as [url |] eqn:Hsub.
    + rewrite (call_main_matched w prog sub url rest Hsub). cbn.
      apply match_url_some in Hsub as [[-> _] | [-> _]]; cbn; lia.
    + rewrite (call_main_unmatched w prog sub rest Hsub). cbn.
      apply match_url_none in Hsub as [Hr Hl].
      apply String.eqb_neq in Hr, Hl. rewrite Hr, Hl. cbn. lia.
Qed.

(** X7. [main] acquires the client exactly when the list has an item at
    index 1, recognized or not; the acquisition is then its first event, the
    release its last, and only the requests lie in between. Otherwise it has
    no events at all. *)
Theorem client_brackets_every_call (w : World) (argv : list string) :
  events (call_main w argv) =
  if Nat.leb 2 (length argv)
  then (ClientEnter :: map Send (requests (events (call_main w argv)))
          ++ [ClientExit])%list
  else [].
Proof.
  destruct argv as [| prog [| sub rest]]; try reflexivity.
  cbn [length Nat.leb].
  destruct (match_url sub) as [url |] eqn:Hsub.
  - now rewrite (call_main_matched w prog sub url rest Hsub).
  - now rewrite (call_main_unmatched w prog sub rest Hsub).
Qed.

(** X8. The unbound-[url] failure occurs exactly when index 1 holds a value
    other than "register" and "login"; the variable it names is [url], and no
    answer of the server can cause or prevent it. *)
Theorem unbound_url_iff_unrecognized (w : World) (argv : list string) :
  ((exists name, result (call_main w argv) = Raise (UnboundLocalError name)) <->
   (exists sub, nth_error argv 1 = Some sub /\
                sub <> "register" /\ sub <> "login")) /\
  (forall name, result (call_main w argv) = Raise (UnboundLocalError name) ->
                name = "url").
Proof.
  destruct argv as [| prog [| sub rest]].
  - split; [split | ].
    + intros [name H]. discriminate H.
    + intros (sub & H & _). discriminate H.
    + intros name H. discriminate H.
  - split; [split | ].
    + intros [name H]. discriminate H.
    + intros (sub & H & _). discriminate H.
    + intros name H. discriminate H.
  - cbn [nth_error]. destruct (match_url sub) as [url |] eqn:Hsub.
    + rewrite (call_main_matched w prog sub url rest Hsub). cbn [result].
      assert (Hno : forall name,
                 match transport w
                         {| req_method := "POST"; req_url := url;
                            req_content :=
                              json_dumps w
                                (JObj [("email", JStr "joeblackwaslike@me.com");
                                       ("password", JStr "Prosperis123!")]) |}
                 with
                 | None => Raise TransportError
                 | Some r =>
                     if is_error (status_code r)
                     then Raise (HTTPStatusError (status_code r))
                     else match json_loads w (content r) with
                          | Some v => Return v
                          | None => Raise ValueError
                          end
                 end <> Raise (UnboundLocalError name)).
      { intros name. destruct (transport w _) as [r |]; [ | discriminate].
        destruct (is_error (status_code r)); [discriminate | ].
        destruct (json_loads w (content r)); discriminate. }
      split; [split | ].
      * intros [name H]. now elim (Hno name).
      * intros (sub' & [= <-] & Hr & Hl).
        apply match_url_some in Hsub as [[-> _] | [-> _]];
          [now elim Hr | now elim Hl].
      * intros name H. now elim (Hno name).
    + rewrite (call_main_unmatched w prog sub rest Hsub). cbn [result].
      apply match_url_none in Hsub as [Hr Hl].
      split; [split | ].
      * intros _. now exists sub.
      * intros _. now exists "url".
      * now intros name [= <-].
Qed.

Lemma unbound_url_iff_unrecognized_witness :
  exists name,
    result (call_main unreachable ["auth-login.py"; "Login"]) =
    Raise (UnboundLocalError name).
Proof.
  pose proof (unbound_url_iff_unrecognized unreachable ["auth-login.py"; "Login"])
    as ([_ Hback] & _).
  apply Hback. exists "Login". repeat split; discriminate.
Defined.

(** X9. What [main] sends does not depend on the server: two worlds with the
    same encoder give the same events and leave the same argument list,
    whatever they answer. The response only decides the outcome. *)
Theorem trace_independent_of_server (w1 w2 : World) (argv : list string) :
  (forall v, json_dumps w1 v = json_dumps w2 v) ->
  events (call_main w1 argv) = events (call_main w2 argv) /\
  final_args (call_main w1 argv) = final_args (call_main w2 argv).
Proof.
  intros Hdumps. destruct argv as [| prog [| sub rest]]; try (split; reflexivity).
  destruct (match_url sub) as [url |] eqn:Hsub.
  - rewrite (call_main_matched w1 prog sub url rest Hsub),
            (call_main_matched w2 prog sub url rest Hsub).
    cbn [events final_args]. now rewrite Hdumps.
  - now rewrite (call_main_unmatched w1 prog sub rest Hsub),
                (call_main_unmatched w2 prog sub rest Hsub).
Qed.

Lemma trace_independent_of_server_witness :
  events (call_main (answering 500) ["auth-login.py"; "login"]) =
  events (call_main unreachable ["auth-login.py"; "login"]) /\
  final_args (call_main (answering 500) ["auth-login.py"; "login"]) =
  final_args (call_main unreachable ["auth-login.py"; "login"]).
Proof.
  apply (trace_independent_of_server (answering 500) unreachable
           ["auth-login.py"; "login"]).
  intros v. reflexivity.
Defined.

(** X10. Anything the script pretty-prints is the decoded body of the
    response to its own request: a value is printed only if index 1 selected
    an endpoint, the POST to it was answered, and the answer's body decodes to
    that value. *)
Theorem printed_value_comes_from_response (w : World) (argv : list string)
        (v : json) :
  In (PPrint v) (snd (script w argv)) ->
  exists sub url r,
    nth_error argv 1 = Some sub /\
    match_url sub = Some url /\
    transport w {| req_method := "POST"; req_url := url;
                   req_content :=
                     json_dumps w (JObj [("email", JStr "joeblackwaslike@me.com");
                                         ("password", JStr "Prosperis123!")]) |}
    = Some r /\
    json_loads w (content r) = Some v.
Proof.
  intros Hin. destruct argv as [| prog [| sub rest]].
  - cbn in Hin. destruct Hin as [H | []]. discriminate H.
  - cbn in Hin. destruct Hin as [H | []]. discriminate H.
  - unfold script in Hin. destruct (match_url sub) as [url |] eqn:Hsub.
    + rewrite (call_main_matched w prog sub url rest Hsub) in Hin.
      cbn [result events] in Hin.
      destruct (transport w _) as [r |] eqn:Hr.
      * exists sub, url, r. repeat split; try assumption.
        destruct (is_error (status_code r)).
        -- cbn in Hin. destruct Hin as [H | [H | [H | [H | []]]]]; discriminate H.
        -- destruct (json_loads w (content r)) as [v0 |].
           ++ cbn in Hin.
              destruct Hin as [H | [H | [H | [H | []]]]]; try discriminate H.
              now injection H as ->.
           ++ cbn in Hin.
              destruct Hin as [H | [H | [H | [H | []]]]]; discriminate H.
      * cbn in Hin. destruct Hin as [H | [H | [H | [H | []]]]]; discriminate H.
    + rewrite (call_main_unmatched w prog sub rest Hsub) in Hin. cbn in Hin.
      destruct Hin as [H | [H | [H | []]]]; discriminate H.
Qed.

Lemma printed_value_comes_from_response_witness :
  exists sub url r,
    nth_error ["auth-login.py"; "register"] 1 = Some sub /\
    match_url sub = Some url /\
    transport (answering 201)
      {| req_method := "POST"; req_url := url;
         req_content :=
           json_dumps (answering 201)
             (JObj [("email", JStr "joeblackwaslike@me.com");
                    ("password", JStr "Prosperis123!")]) |}
    = Some r /\
    json_loads (answering 201) (content r) = Some token_json.
Proof.
  apply (printed_value_comes_from_response (answering 201)
           ["auth-login.py"; "register"] token_json).
  cbn. do 3 right. left. reflexivity.
Defined.
